(** * spyglass.runtime: trace/span context propagation, span ids, collector queue

    A shallow embedding of [src/spyglass/runtime/context.py] over a model of
    Python's [contextvars] (Context, ContextVar, Token), followed by the
    properties of the context layer, the span-id format and the collector's
    bounded queue. *)

From stdpp Require Import base option list gmap strings.
From Stdlib Require Import ZArith Lia Ascii.

Local Open Scope string_scope.

(** ** Python values and exceptions *)

(** [Optional[str]]: [None] is Python's [None]. *)
Abbreviation value := (option string) (only parsing).

Inductive exception : Type :=
  | LookupError                 (* ContextVar.get() without value or default *)
  | TypeError                   (* reset() of something that is not a Token *)
  | RuntimeError                (* reset() of a Token that was already used *)
  | ValueError                  (* reset() of a Token of another var / Context *)
  | UserError (what : string).  (* anything raised by client code *)

#[global] Instance exception_eq_dec : EqDecision exception.
Proof. solve_decision. Defined.

(** ** contextvars: ContextVar, Context, Token *)

(** A ContextVar object: its name and its optional default
    ([cv_default = None]: constructed without [default=]). *)
Record ContextVar : Type := mkContextVar {
  cv_name : string;
  cv_default : option value
}.

#[global] Instance ContextVar_eq_dec : EqDecision ContextVar.
Proof. solve_decision. Defined.

#[global] Instance ContextVar_countable : Countable ContextVar.
Proof.
  refine (inj_countable' (fun v => (cv_name v, cv_default v))
                         (fun p => mkContextVar p.1 p.2) _).
  by intros [].
Defined.

(** A Token object as it lives on the heap: the Context and the variable it
    was created for, the value before the [set] ([None]: [Token.MISSING], the
    variable had no value in the Context), and the used flag. *)
Record TokenObj : Type := mkTokenObj {
  tok_ctx : nat;
  tok_var : ContextVar;
  tok_oldval : option value;
  tok_used : bool
}.

(** A reference to a Token object (its address in the heap of tokens). *)
Abbreviation Token := nat (only parsing).

(** The interpreter state a unit of work sees: the current Context object
    (its identity and its var -> value mapping) and the Token objects
    allocated so far. *)
Record State : Type := mkState {
  ctx_id : nat;
  ctx_vars : gmap ContextVar value;
  tokens : list TokenObj
}.

(** A fresh interpreter: an empty Context, no Token allocated. *)
Definition initial_state : State :=
  {| ctx_id := 0; ctx_vars := ∅; tokens := [] |}.

(** ** Computations that may raise *)

Inductive Outcome (A : Type) : Type :=
  | Return (a : A)
  | Raise (e : exception).
Arguments Return {A} a.
Arguments Raise {A} e.

Definition M (A : Type) : Type := State -> Outcome A * State.

Definition ret {A} (a : A) : M A := fun s => (Return a, s).
Definition raise {A} (e : exception) : M A := fun s => (Raise e, s).
Definition bind {A B} (m : M A) (k : A -> M B) : M B :=
  fun s => match m s with
           | (Return a, s') => k a s'
           | (Raise e, s') => (Raise e, s')
           end.

Notation "x <- m ;; k" := (bind m (fun x => k))
  (at level 100, m at next level, right associativity).
Notation "m ;;; k" := (bind m (fun _ => k))
  (at level 100, right associativity).

(** [try: m finally: fin]. The finaliser runs on both exits of [m]; an
    exception raised by the finaliser replaces the pending outcome. *)
Definition try_finally {A} (m : M A) (fin : M unit) : M A :=
  fun s => match m s with
           | (r, s') =>
               match fin s' with
               | (Return _, s'') => (r, s'')
               | (Raise e, s'') => (Raise e, s'')
               end
           end.

(** [if x is not None: k x] *)
Definition when_some {A} (x : option A) (k : A -> M unit) : M unit :=
  match x with
  | Some a => k a
  | None => ret tt
  end.

(** ** ContextVar methods *)

(** [var.get()]: the value in the current Context, else the default of the
    variable, else LookupError. *)
Definition ContextVar_get (var : ContextVar) : M value :=
  fun s => match ctx_vars s !! var with
           | Some v => (Return v, s)
           | None =>
               match cv_default var with
               | Some d => (Return d, s)
               | None => (Raise LookupError, s)
               end
           end.

(** [var.set(value)]: allocates the Token that remembers the old binding and
    binds [var] in the current Context. *)
Definition ContextVar_set (var : ContextVar) (v : value) : M Token :=
  fun s =>
    let tok := {| tok_ctx := ctx_id s; tok_var := var;
                  tok_oldval := ctx_vars s !! var; tok_used := false |} in
    (Return (length (tokens s)),
     {| ctx_id := ctx_id s;
        ctx_vars := <[var := v]> (ctx_vars s);
        tokens := tokens s ++ [tok] |}).

Definition mark_used (t : TokenObj) : TokenObj :=
  {| tok_ctx := tok_ctx t; tok_var := tok_var t;
     tok_oldval := tok_oldval t; tok_used := true |}.

(** [var.reset(token)], with CPython's order of checks: not a Token, already
    used, other variable, other Context; then the token is marked used and
    the old binding (or its absence) is put back. *)
Definition ContextVar_reset (var : ContextVar) (token : Token) : M unit :=
  fun s =>
    match tokens s !! token with
    | None => (Raise TypeError, s)
    | Some t =>
        if tok_used t then (Raise RuntimeError, s)
        else if negb (bool_decide (tok_var t = var)) then (Raise ValueError, s)
        else if negb (bool_decide (tok_ctx t = ctx_id s)) then (Raise ValueError, s)
        else
          (Return tt,
           {| ctx_id := ctx_id s;
              ctx_vars := match tok_oldval t with
                          | None => delete var (ctx_vars s)
                          | Some old => <[var := old]> (ctx_vars s)
                          end;
              tokens := <[token := mark_used t]> (tokens s) |})
    end.

(** ** context.py *)

Definition _TRACE_ID : ContextVar :=
  {| cv_name := "spyglass_trace_id"; cv_default := Some None |}.
Definition _SPAN_ID : ContextVar :=
  {| cv_name := "spyglass_span_id"; cv_default := Some None |}.

Definition get_trace_id : M value := ContextVar_get _TRACE_ID.
Definition get_span_id : M value := ContextVar_get _SPAN_ID.

Definition set_trace_id (v : value) : M Token := ContextVar_set _TRACE_ID v.
Definition set_span_id (v : value) : M Token := ContextVar_set _SPAN_ID v.

Definition reset_trace_id (token : Token) : M unit := ContextVar_reset _TRACE_ID token.
Definition reset_span_id (token : Token) : M unit := ContextVar_reset _SPAN_ID token.

(** The locals [ttoken], [stoken] of the generator frame of [use_span]. *)
Record Handle : Type := mkHandle {
  ttoken : option Token;
  stoken : option Token
}.

(** [use_span] up to its [yield]: what [__enter__] of the context manager
    runs. Returns the frame's locals. Both [set] calls sit inside the [try],
    but [ContextVar.set] has no failing path, so the [finally] block always
    finds the locals as they are returned here. *)
Definition use_span_enter (trace_id span_id : value) : M Handle :=
  tt' <- match trace_id with
         | Some _ => t <- set_trace_id trace_id ;; ret (Some t)
         | None => ret None
         end ;;
  st' <- match span_id with
         | Some _ => t <- set_span_id span_id ;; ret (Some t)
         | None => ret None
         end ;;
  ret {| ttoken := tt'; stoken := st' |}.

(** The [finally] block of [use_span]: what [__exit__] runs. *)
Definition use_span_exit (h : Handle) : M unit :=
  when_some (stoken h) reset_span_id ;;;
  when_some (ttoken h) reset_trace_id.

(** [with use_span(trace_id, span_id): body]: the generator runs to its
    [yield], the body runs, and the generator is resumed (normally, or with
    the body's exception thrown in at the [yield]), which runs the [finally]
    block; the body's outcome passes through unless the [finally] block
    itself raises. *)
Definition use_span {A} (trace_id span_id : value) (body : M A) : M A :=
  h <- use_span_enter trace_id span_id ;;
  try_finally body (use_span_exit h).

(** The value a getter reads in a state. *)
Definition current (m : M value) (s : State) : Outcome value := (m s).1.

(** The binding of a variable in the current Context ([None]: no binding). *)
Definition slot (var : ContextVar) (s : State) : option value :=
  ctx_vars s !! var.

(** A token the current unit of work may still pass to [var.reset]. *)
Definition valid_token (var : ContextVar) (token : Token) (s : State) : Prop :=
  exists t, tokens s !! token = Some t
            /\ tok_used t = false /\ tok_var t = var /\ tok_ctx t = ctx_id s.

(** The body of a [with use_span(...)] block holds no reference to the two
    tokens of the generator frame and is left in the Context it was entered
    in: what [keeps_handle h s s'] says of the states before and after it. *)
Definition keeps_handle (h : Handle) (s s' : State) : Prop :=
  ctx_id s' = ctx_id s
  /\ forall token, ttoken h = Some token \/ stoken h = Some token ->
                   tokens s' !! token = tokens s !! token.

(** The tokens of a handle are Token objects of the heap of [s]. *)
Definition handle_allocated (h : Handle) (s : State) : Prop :=
  forall token, ttoken h = Some token \/ stoken h = Some token ->
                is_Some (tokens s !! token).

(** A computation that, started where the handle's tokens exist, neither
    touches them nor leaves the Context: code that holds no reference to the
    tokens of the generator frame. *)
Definition hands_off {A} (h : Handle) (m : M A) : Prop :=
  forall s, handle_allocated h s -> keeps_handle h s (m s).2.

(** Nested activations, outermost first:
    [with use_span(t1, s1): with use_span(t2, s2): ... body]. *)
Fixpoint nested {A} (acts : list (value * value)) (body : M A) : M A :=
  match acts with
  | [] => body
  | (trace_id, span_id) :: inner => use_span trace_id span_id (nested inner body)
  end.

(** The Token object [var.set] allocates in state [s]. *)
Definition fresh_token (var : ContextVar) (s : State) : TokenObj :=
  {| tok_ctx := ctx_id s; tok_var := var;
     tok_oldval := slot var s; tok_used := false |}.

(** Reading both ids, as the tests and [make_event] of the examples do. *)
Definition get_ids : M (value * value) :=
  t <- get_trace_id ;; sp <- get_span_id ;; ret (t, sp).

(** A computation that leaves the Context as it found it and only adds to
    the heap of tokens. *)
Definition balanced {A} (m : M A) : Prop :=
  forall s, ctx_id (m s).2 = ctx_id s
            /\ ctx_vars (m s).2 = ctx_vars s
            /\ (forall i t, tokens s !! i = Some t -> tokens (m s).2 !! i = Some t).


(** The state after [set_trace_id("outer")] in a fresh interpreter: token 0
    is live. *)
Definition outer_state : State := (set_trace_id (Some "outer") initial_state).2.

(** [with use_span("t1", "s1"): with use_span(span_id="s2"): get ids]. *)
Definition inner_span_only : M (value * value) :=
  use_span (Some "t1") (Some "s1") (use_span None (Some "s2") get_ids).

(** A body that rebinds the trace id and does not reset it. *)
Definition leaking_body : M unit := set_trace_id (Some "leak") ;;; ret tt.

(** ** ids.py: the span-id generator *)

Local Open Scope Z_scope.

Definition hex_alphabet : list ascii :=
  Eval cbv in String.list_ascii_of_string "0123456789abcdef".

(** The digit character of [d], [0 <= d < 16]. *)
Definition hex_char (d : Z) : ascii := nth (Z.to_nat d) hex_alphabet "0"%char.

(** The value of a lowercase hexadecimal digit. *)
Definition hex_value (c : ascii) : option Z :=
  (fix find (l : list ascii) (i : Z) : option Z :=
     match l with
     | [] => None
     | a :: l' => if bool_decide (a = c) then Some i else find l' (i + 1)
     end) hex_alphabet 0.

(** Modelled from the spec: the fixed-width lowercase hexadecimal
    representation. [width] digits of [x], most significant first, in front
    of [acc]: the format [f"{x:0{width}x}"] for [0 <= x < 16^width]. *)
Fixpoint hex_digits (width : nat) (x : Z) (acc : string) : string :=
  match width with
  | O => acc
  | S w => hex_digits w (x / 16) (String (hex_char (x mod 16)) acc)
  end.

(** Modelled from the spec: [spyglass/runtime/ids.py] is not among the
    sources. The generator produces the fixed 16 lowercase-hex-digit
    representation of a 64-bit value and never the all-zero value; [draw] is
    what its random source delivers, taken as a 64-bit value, and a zero
    draw is replaced by 1. *)
Definition span_id (draw : Z) : string :=
  let x := draw mod 2 ^ 64 in
  let x := if x =? 0 then 1 else x in
  hex_digits 16 x "".

(** The test's [HEX16 = re.compile(r"^[0-9a-f]{16}$")]. *)
Definition HEX16_match (s : string) : bool :=
  bool_decide (String.length s = 16%nat)
  && forallb (fun c => bool_decide (is_Some (hex_value c)))
             (String.list_ascii_of_string s).

(** The test's [int(s, 16)] on strings of lowercase hex digits. *)
Fixpoint int16_from (s : string) (acc : Z) : option Z :=
  match s with
  | EmptyString => Some acc
  | String c s' =>
      match hex_value c with
      | Some d => int16_from s' (16 * acc + d)
      | None => None
      end
  end.
Definition int16 (s : string) : option Z := int16_from s 0.

Local Close Scope Z_scope.

(** ** core/async_collector.py: the bounded queue *)

Local Open Scope list_scope.

Section Collector.
Context {Event : Type}.

(** Modelled from the spec: [spyglass/core/async_collector.py] is not among
    the sources (only its callers in [examples/] are). The collector holds
    the pending events, oldest first, in a queue of capacity [queue_size];
    it stops queueing once closed. *)
Record AsyncCollector : Type := mkCollector {
  queue : list Event;
  queue_size : nat;
  closed : bool
}.

(** Modelled from the spec: the constructor of the absent collector, which
    rejects a non-positive capacity. *)
Definition AsyncCollector_new (capacity : nat) : option AsyncCollector :=
  match capacity with
  | O => None
  | S _ => Some {| queue := []; queue_size := capacity; closed := false |}
  end.

(** Modelled from the spec: [enqueue] of the absent collector. After
    [close] the event is dropped; at capacity the oldest queued event is
    evicted to make room; the call never blocks. *)
Definition enqueue (c : AsyncCollector) (e : Event) : AsyncCollector :=
  if closed c then c
  else
    let q := if bool_decide (queue_size c <= length (queue c))
             then drop 1 (queue c) else queue c in
    {| queue := q ++ [e]; queue_size := queue_size c; closed := closed c |}.

(** Modelled from the spec: the flush of the absent collector takes all
    queued events, in order, out of the queue. *)
Definition drain (c : AsyncCollector) : list Event * AsyncCollector :=
  (queue c, {| queue := []; queue_size := queue_size c; closed := closed c |}).

(** A run of [enqueue] calls with no flush in between. *)
Definition enqueue_all (c : AsyncCollector) (es : list Event) : AsyncCollector :=
  foldl enqueue c es.

(** The last [n] elements of a list. *)
Definition last_n (n : nat) (l : list Event) : list Event :=
  drop (length l - n) l.

End Collector.

Arguments AsyncCollector : clear implicits.

(** ** Manual use of the setters and reset helpers *)

(** [t1 = set_trace_id(a); t2 = set_trace_id(b)], then the two resets in the
    order given, then [get_trace_id()]. *)
Definition set_twice_then_reset (a b : value) (lifo : bool) : M value :=
  t1 <- set_trace_id a ;;
  t2 <- set_trace_id b ;;
  (if lifo then reset_trace_id t2 ;;; reset_trace_id t1
   else reset_trace_id t1 ;;; reset_trace_id t2) ;;;
  get_trace_id.

(** An argument list seen from inside: the innermost one that is not None,
    else the value in effect outside. *)
Definition innermost (args : list value) (outer : value) : value :=
  foldl (fun cur arg => match arg with Some _ => arg | None => cur end) outer args.

(** A Context object other than the current one holding the same bindings,
    as [contextvars.copy_context()] makes; the heap of tokens is shared. *)
Definition in_copied_context (s : State) : State :=
  {| ctx_id := S (ctx_id s); ctx_vars := ctx_vars s; tokens := tokens s |}.

(** ** examples/example_asyc_pipeline.py: the event model *)

Module AsyncPipeline.
Section Events.
Context {Obj : Type}.

(** The dataclass [Event]; [Obj] stands for the [object] values of [attrs]. *)
Record Event : Type := mkEvent {
  ts_ns : Z;
  trace_id : value;
  span_id : value;
  level : string;
  msg : string;
  attrs : gmap string Obj
}.

(** The keyword arguments of a call bind to [**attrs] only when none of them
    is named like a parameter: a keyword [level] or [msg] next to the two
    named arguments gives the parameter a second value. *)
Definition duplicate_keyword (attrs : gmap string Obj) : bool :=
  bool_decide (is_Some (attrs !! "level") \/ is_Some (attrs !! "msg")).

(** [make_event(level, msg, **attrs)]. A call whose keywords collide with
    [level] or [msg] raises TypeError before the body runs. The clock
    [now_ns] of [runtime/clock.py] is not among the sources; [now] is its
    reading. *)
Definition make_event (now : Z) (level msg : string) (attrs : gmap string Obj)
    : M Event :=
  if duplicate_keyword attrs then raise TypeError
  else
    t <- get_trace_id ;;
    sp <- get_span_id ;;
    ret {| ts_ns := now; trace_id := t; span_id := sp;
           level := level; msg := msg; attrs := attrs |}.

End Events.
End AsyncPipeline.

(** The state in which a second [set_trace_id] has rebound the trace id
    after token 1 was taken. *)
Definition rebound_state : State :=
  (set_trace_id (Some "y") (set_trace_id (Some "x") outer_state).2).2.

(** ** Bodies that leave the Context, calls made one after another *)



(** One call into context.py; the two halves of a [with use_span(...)]
    block count as calls of their own, so that any calls may sit between
    them. *)
Inductive Call : Type :=
  | GetTraceId
  | GetSpanId
  | SetTraceId (v : value)
  | SetSpanId (v : value)
  | ResetTraceId (token : Token)
  | ResetSpanId (token : Token)
  | EnterSpan (trace_id span_id : value)
  | ExitSpan (h : Handle).

(** The state a call leaves, whether it returned or raised. *)
Definition call_state (c : Call) (s : State) : State :=
  match c with
  | GetTraceId => (get_trace_id s).2
  | GetSpanId => (get_span_id s).2
  | SetTraceId v => (set_trace_id v s).2
  | SetSpanId v => (set_span_id v s).2
  | ResetTraceId token => (reset_trace_id token s).2
  | ResetSpanId token => (reset_span_id token s).2
  | EnterSpan trace_id span_id => (use_span_enter trace_id span_id s).2
  | ExitSpan h => (use_span_exit h s).2
  end.

(** The state after a sequence of calls, each caught if it raises. *)
Definition after_calls (calls : list Call) (s : State) : State :=
  foldl (fun s c => call_state c s) s calls.

(** A token that a reset has used. *)
Definition spent (token : Token) (s : State) : Prop :=
  exists t, tokens s !! token = Some t /\ tok_used t = true.

(** * Properties *)

(** ** Basic facts about the ContextVar methods *)

Lemma _TRACE_ID_neq_SPAN_ID : _TRACE_ID <> _SPAN_ID.
Proof. discriminate. Qed.

Lemma current_get_slot (var : ContextVar) (s s' : State) :
  slot var s = slot var s' ->
  current (ContextVar_get var) s = current (ContextVar_get var) s'.
Proof.
  unfold current, ContextVar_get, slot. intros ->.
  destruct (ctx_vars s' !! var); [done|]. by destruct (cv_default var).
Qed.

Lemma ContextVar_get_state (var : ContextVar) (s : State) :
  (ContextVar_get var s).2 = s.
Proof.
  unfold ContextVar_get.
  destruct (ctx_vars s !! var); [done|]. by destruct (cv_default var).
Qed.

Lemma ContextVar_get_bound (var : ContextVar) (v : value) (s : State) :
  slot var s = Some v -> ContextVar_get var s = (Return v, s).
Proof. unfold ContextVar_get, slot. by intros ->. Qed.

Lemma ContextVar_set_slot_eq (var : ContextVar) (v : value) (s : State) :
  slot var (ContextVar_set var v s).2 = Some v.
Proof. apply lookup_insert_eq. Qed.

Lemma ContextVar_set_slot_ne (var var' : ContextVar) (v : value) (s : State) :
  var <> var' -> slot var' (ContextVar_set var v s).2 = slot var' s.
Proof. intros. by apply lookup_insert_ne. Qed.

Lemma ContextVar_reset_valid (var : ContextVar) (token : Token) (s : State)
    (t : TokenObj) :
  tokens s !! token = Some t -> tok_used t = false ->
  tok_var t = var -> tok_ctx t = ctx_id s ->
  ContextVar_reset var token s =
    (Return tt,
     {| ctx_id := ctx_id s;
        ctx_vars := match tok_oldval t with
                    | None => delete var (ctx_vars s)
                    | Some old => <[var := old]> (ctx_vars s)
                    end;
        tokens := <[token := mark_used t]> (tokens s) |}).
Proof.
  intros Hl Hu Hv Hc. unfold ContextVar_reset. rewrite Hl, Hu.
  rewrite !bool_decide_eq_true_2 by done. done.
Qed.

(** A failed [reset] changes nothing; any [reset] keeps the Context object
    and only touches its own variable. *)
Lemma ContextVar_reset_frame (var var' : ContextVar) (token : Token) (s : State) :
  var <> var' ->
  slot var' (ContextVar_reset var token s).2 = slot var' s
  /\ ctx_id (ContextVar_reset var token s).2 = ctx_id s.
Proof.
  intros Hne. unfold ContextVar_reset, slot.
  destruct (tokens s !! token) as [t|]; [|done].
  destruct (tok_used t); [done|].
  destruct (negb (bool_decide (tok_var t = var))); [done|].
  destruct (negb (bool_decide (tok_ctx t = ctx_id s))); [done|].
  split; [|done]. simpl.
  destruct (tok_oldval t).
  - by apply lookup_insert_ne.
  - by apply lookup_delete_ne.
Qed.

(** ** [use_span]: entering *)

(** What [__enter__] does, field by field. *)
Lemma use_span_enter_spec (trace_id span_id : value) (s : State) :
  exists h s1,
    use_span_enter trace_id span_id s = (Return h, s1)
    /\ ctx_id s1 = ctx_id s
    /\ (forall i t, tokens s !! i = Some t -> tokens s1 !! i = Some t)
    /\ slot _TRACE_ID s1 = match trace_id with
                           | Some _ => Some trace_id
                           | None => slot _TRACE_ID s
                           end
    /\ slot _SPAN_ID s1 = match span_id with
                          | Some _ => Some span_id
                          | None => slot _SPAN_ID s
                          end
    /\ (forall var, var <> _TRACE_ID -> var <> _SPAN_ID -> slot var s1 = slot var s)
    /\ match trace_id with
       | Some _ => exists token, ttoken h = Some token
                     /\ length (tokens s) <= token
                     /\ tokens s1 !! token = Some (fresh_token _TRACE_ID s)
       | None => ttoken h = None
       end
    /\ match span_id with
       | Some _ => exists token, stoken h = Some token
                     /\ length (tokens s) <= token
                     /\ tokens s1 !! token = Some (fresh_token _SPAN_ID s)
       | None => stoken h = None
       end.
Proof.
  pose proof _TRACE_ID_neq_SPAN_ID as Hne.
  destruct trace_id as [t|], span_id as [sp|];
    eexists _, _; (split; [reflexivity|]); simpl;
    (split; [reflexivity|]).
  - split; [intros i x Hi; rewrite <- !(assoc_L (++)); by apply lookup_app_l_Some|].
    unfold slot; simpl.
    split; [by rewrite lookup_insert_ne, lookup_insert_eq|].
    split; [by rewrite lookup_insert_eq|].
    split; [intros var H1 H2; by rewrite !lookup_insert_ne|].
    split.
    + exists (length (tokens s)). split; [done|]. split; [lia|].
      rewrite lookup_app_l by (rewrite length_app; simpl; lia).
      by rewrite list_lookup_middle.
    + exists (length (tokens s ++ [fresh_token _TRACE_ID s])).
      split; [done|]. split; [rewrite length_app; lia|].
      rewrite list_lookup_middle by done.
      unfold fresh_token, slot; simpl. by rewrite lookup_insert_ne.
  - split; [intros i x Hi; by apply lookup_app_l_Some|].
    unfold slot; simpl.
    split; [by rewrite lookup_insert_eq|].
    split; [by rewrite lookup_insert_ne|].
    split; [intros var H1 H2; by rewrite !lookup_insert_ne|].
    split; [|done].
    exists (length (tokens s)). split; [done|]. split; [lia|].
    by rewrite list_lookup_middle.
  - split; [intros i x Hi; by apply lookup_app_l_Some|].
    unfold slot; simpl.
    split; [by rewrite lookup_insert_ne|].
    split; [by rewrite lookup_insert_eq|].
    split; [intros var H1 H2; by rewrite !lookup_insert_ne|].
    split; [done|].
    exists (length (tokens s)). split; [done|]. split; [lia|].
    by rewrite list_lookup_middle.
  - split; [done|]. do 3 (split; [done|]). done.
Qed.

(** ** [use_span]: leaving *)

Lemma valid_token_inj (var var' : ContextVar) (token : Token) (s : State) :
  valid_token var token s -> valid_token var' token s -> var = var'.
Proof. intros (t & Hl & _ & Hv & _) (t' & Hl' & _ & Hv' & _). congruence. Qed.

Lemma ContextVar_reset_token_spec (var : ContextVar) (token : Token) (s : State) :
  valid_token var token s ->
  exists t s', tokens s !! token = Some t
    /\ ContextVar_reset var token s = (Return tt, s')
    /\ ctx_id s' = ctx_id s
    /\ slot var s' = tok_oldval t
    /\ (forall var', var <> var' -> slot var' s' = slot var' s)
    /\ tokens s' = <[token := mark_used t]> (tokens s).
Proof.
  intros (t & Hl & Hu & Hv & Hc). exists t. eexists. split; [done|].
  split; [by apply ContextVar_reset_valid|]. simpl.
  split; [done|]. unfold slot; simpl. split; [|split; [|done]].
  - destruct (tok_oldval t); [apply lookup_insert_eq|apply lookup_delete_eq].
  - intros var' Hne.
    destruct (tok_oldval t); [by apply lookup_insert_ne|by apply lookup_delete_ne].
Qed.

(** The [finally] block run with both tokens still valid: it cannot raise,
    puts back the old binding of each variable that has a token, and touches
    nothing else. *)
Lemma use_span_exit_spec (h : Handle) (s : State) :
  (forall token, ttoken h = Some token -> valid_token _TRACE_ID token s) ->
  (forall token, stoken h = Some token -> valid_token _SPAN_ID token s) ->
  exists s',
    use_span_exit h s = (Return tt, s')
    /\ ctx_id s' = ctx_id s
    /\ match ttoken h with
       | Some token => exists t, tokens s !! token = Some t
                                 /\ slot _TRACE_ID s' = tok_oldval t
       | None => slot _TRACE_ID s' = slot _TRACE_ID s
       end
    /\ match stoken h with
       | Some token => exists t, tokens s !! token = Some t
                                 /\ slot _SPAN_ID s' = tok_oldval t
       | None => slot _SPAN_ID s' = slot _SPAN_ID s
       end
    /\ (forall var, var <> _TRACE_ID -> var <> _SPAN_ID -> slot var s' = slot var s)
    /\ length (tokens s') = length (tokens s)
    /\ (forall i, ttoken h <> Some i -> stoken h <> Some i ->
                  tokens s' !! i = tokens s !! i).
Proof.
  pose proof _TRACE_ID_neq_SPAN_ID as Hne.
  destruct h as [[tk|] [sk|]]; simpl; intros Ht Hs; unfold use_span_exit; simpl.
  - destruct (ContextVar_reset_token_spec _SPAN_ID sk s (Hs _ eq_refl))
      as (ts & s1 & Hls & Hr1 & Hc1 & Hv1 & Ho1 & Ht1).
    assert (tk <> sk) as Hk.
    { intros ->. apply Hne. eapply valid_token_inj; [apply Ht|apply Hs]; done. }
    destruct (Ht _ eq_refl) as (tt0 & Hlt & Hut & Hvt & Hct).
    assert (valid_token _TRACE_ID tk s1) as Hval.
    { exists tt0. rewrite Ht1, list_lookup_insert_ne by done.
      rewrite Hc1. done. }
    destruct (ContextVar_reset_token_spec _TRACE_ID tk s1 Hval)
      as (tt1 & s2 & Hlt1 & Hr2 & Hc2 & Hv2 & Ho2 & Ht2).
    assert (tt1 = tt0) as ->.
    { rewrite Ht1, list_lookup_insert_ne in Hlt1 by done. congruence. }
    exists s2. unfold bind, reset_span_id, reset_trace_id. rewrite Hr1, Hr2.
    split; [done|]. split; [congruence|].
    split; [by exists tt0|].
    split; [exists ts; split; [done|]; rewrite Ho2 by done; done|].
    split; [intros var H1 H2; rewrite Ho2, Ho1 by done; done|].
    split; [by rewrite Ht2, Ht1, !length_insert|].
    intros i Hi1 Hi2. rewrite Ht2, Ht1.
    rewrite !list_lookup_insert_ne by congruence. done.
  - destruct (ContextVar_reset_token_spec _TRACE_ID tk s (Ht _ eq_refl))
      as (tt0 & s1 & Hlt & Hr1 & Hc1 & Hv1 & Ho1 & Ht1).
    exists s1. unfold bind, ret, reset_trace_id. rewrite Hr1.
    split; [done|]. split; [done|].
    split; [by exists tt0|].
    split; [by apply Ho1|].
    split; [intros var H1 H2; by apply Ho1|].
    split; [by rewrite Ht1, length_insert|].
    intros i Hi1 Hi2. rewrite Ht1, list_lookup_insert_ne by congruence. done.
  - destruct (ContextVar_reset_token_spec _SPAN_ID sk s (Hs _ eq_refl))
      as (ts & s1 & Hls & Hr1 & Hc1 & Hv1 & Ho1 & Ht1).
    exists s1. unfold bind, ret, reset_span_id. rewrite Hr1.
    split; [done|]. split; [done|].
    split; [by apply Ho1|].
    split; [by exists ts|].
    split; [intros var H1 H2; by apply Ho1|].
    split; [by rewrite Ht1, length_insert|].
    intros i Hi1 Hi2. rewrite Ht1, list_lookup_insert_ne by congruence. done.
  - exists s. done.
Qed.

(** ** [use_span]: a whole [with] block *)

Lemma use_span_run {A} (trace_id span_id : value) (body : M A)
    (s s1 s2 : State) (h : Handle) (r : Outcome A) :
  use_span_enter trace_id span_id s = (Return h, s1) ->
  body s1 = (r, s2) ->
  keeps_handle h s1 s2 ->
  exists s3,
    use_span trace_id span_id body s = (r, s3)
    /\ use_span_exit h s2 = (Return tt, s3)
    /\ ctx_id s3 = ctx_id s
    /\ slot _TRACE_ID s3 = match trace_id with
                           | Some _ => slot _TRACE_ID s
                           | None => slot _TRACE_ID s2
                           end
    /\ slot _SPAN_ID s3 = match span_id with
                          | Some _ => slot _SPAN_ID s
                          | None => slot _SPAN_ID s2
                          end
    /\ (forall var, var <> _TRACE_ID -> var <> _SPAN_ID -> slot var s3 = slot var s2)
    /\ length (tokens s3) = length (tokens s2)
    /\ (forall i, i < length (tokens s) -> tokens s3 !! i = tokens s2 !! i).
Proof.
  intros Henter Hbody [Hctx Hkeep].
  destruct (use_span_enter_spec trace_id span_id s)
    as (h' & s1' & He & Hc1 & Hext & Hst & Hss & Hso & Htok & Hstok).
  rewrite Henter in He. injection He as <- <-.
  assert (forall token, ttoken h = Some token -> valid_token _TRACE_ID token s2
            /\ is_Some trace_id /\ length (tokens s) <= token
            /\ tokens s2 !! token = Some (fresh_token _TRACE_ID s)) as Hvt.
  { intros token Heq. destruct trace_id as [t|]; [|congruence].
    destruct Htok as (token' & Heq' & Hlen & Hl).
    assert (token' = token) as -> by congruence.
    assert (tokens s2 !! token = Some (fresh_token _TRACE_ID s)) as Hl2
      by (rewrite Hkeep by auto; done).
    split; [|done].
    exists (fresh_token _TRACE_ID s). simpl. repeat split; [done|congruence]. }
  assert (forall token, stoken h = Some token -> valid_token _SPAN_ID token s2
            /\ is_Some span_id /\ length (tokens s) <= token
            /\ tokens s2 !! token = Some (fresh_token _SPAN_ID s)) as Hvs.
  { intros token Heq. destruct span_id as [sp|]; [|congruence].
    destruct Hstok as (token' & Heq' & Hlen & Hl).
    assert (token' = token) as -> by congruence.
    assert (tokens s2 !! token = Some (fresh_token _SPAN_ID s)) as Hl2
      by (rewrite Hkeep by auto; done).
    split; [|done].
    exists (fresh_token _SPAN_ID s). simpl. repeat split; [done|congruence]. }
  destruct (use_span_exit_spec h s2) as
    (s3 & Hexit & Hc3 & Ht3 & Hs3 & Ho3 & Hlen3 & Hi3).
  { intros token Heq. by apply Hvt. }
  { intros token Heq. by apply Hvs. }
  exists s3.
  split.
  { unfold use_span, bind. rewrite Henter. unfold try_finally.
    rewrite Hbody, Hexit. done. }
  split; [done|]. split; [congruence|].
  split.
  { destruct (ttoken h) as [token|] eqn:Eh.
    - destruct (Hvt token eq_refl) as (_ & [t ->] & _ & Hl).
      destruct Ht3 as (t0 & Hl0 & ->). rewrite Hl in Hl0.
      by injection Hl0 as <-.
    - destruct trace_id as [t|]; [|done].
      destruct Htok as (? & ? & _). congruence. }
  split.
  { destruct (stoken h) as [token|] eqn:Eh.
    - destruct (Hvs token eq_refl) as (_ & [t ->] & _ & Hl).
      destruct Hs3 as (t0 & Hl0 & ->). rewrite Hl in Hl0.
      by injection Hl0 as <-.
    - destruct span_id as [t|]; [|done].
      destruct Hstok as (? & ? & _). congruence. }
  split; [done|]. split; [done|].
  intros i Hi. apply Hi3.
  - intros Heq. destruct (Hvt i Heq) as (_ & _ & Hle & _). lia.
  - intros Heq. destruct (Hvs i Heq) as (_ & _ & Hle & _). lia.
Qed.

Lemma ret_balanced {A} (a : A) : balanced (ret a).
Proof. intros s. done. Qed.

Lemma get_ids_returns (s : State) :
  exists t sp, get_ids s = (Return (t, sp), s)
               /\ current get_trace_id s = Return t
               /\ current get_span_id s = Return sp.
Proof.
  unfold get_ids, bind, current, get_trace_id, get_span_id, ContextVar_get.
  simpl. destruct (ctx_vars s !! _TRACE_ID), (ctx_vars s !! _SPAN_ID); eauto.
Qed.

Lemma get_ids_balanced : balanced get_ids.
Proof.
  intros s. destruct (get_ids_returns s) as (t & sp & -> & _). done.
Qed.

(** ** Code that holds no reference to the tokens of an activation *)

Lemma keeps_handle_refl (h : Handle) (s : State) : keeps_handle h s s.
Proof. done. Qed.

Lemma keeps_handle_trans (h : Handle) (s1 s2 s3 : State) :
  keeps_handle h s1 s2 -> keeps_handle h s2 s3 -> keeps_handle h s1 s3.
Proof.
  intros [Hc1 Ht1] [Hc2 Ht2]. split; [congruence|].
  intros token Htk. rewrite Ht2, Ht1 by done. done.
Qed.

Lemma keeps_handle_allocated (h : Handle) (s s' : State) :
  handle_allocated h s -> keeps_handle h s s' -> handle_allocated h s'.
Proof. intros Ha [_ Ht] token Htk. rewrite Ht by done. by apply Ha. Qed.

Lemma use_span_enter_allocated (trace_id span_id : value) (s s1 : State)
    (h : Handle) :
  use_span_enter trace_id span_id s = (Return h, s1) -> handle_allocated h s1.
Proof.
  intros Henter.
  destruct (use_span_enter_spec trace_id span_id s)
    as (h' & s1' & He & _ & _ & _ & _ & _ & Htok & Hstok).
  rewrite Henter in He. injection He as <- <-.
  intros token [Htk|Htk].
  - destruct trace_id; [|congruence]. destruct Htok as (x & Hx & _ & Hl).
    assert (x = token) as -> by congruence. by eexists.
  - destruct span_id; [|congruence]. destruct Hstok as (x & Hx & _ & Hl).
    assert (x = token) as -> by congruence. by eexists.
Qed.

(** [reset] only writes the Token object it is given. *)
Lemma ContextVar_reset_other (var : ContextVar) (token i : Token) (s : State) :
  i <> token ->
  tokens (ContextVar_reset var token s).2 !! i = tokens s !! i
  /\ ctx_id (ContextVar_reset var token s).2 = ctx_id s.
Proof.
  intros Hne. unfold ContextVar_reset.
  destruct (tokens s !! token) as [t|]; [|done].
  destruct (tok_used t); [done|].
  destruct (negb (bool_decide (tok_var t = var))); [done|].
  destruct (negb (bool_decide (tok_ctx t = ctx_id s))); [done|].
  simpl. split; [|done]. by apply list_lookup_insert_ne.
Qed.

Lemma hands_off_ret {A} (h : Handle) (a : A) : hands_off h (ret a).
Proof. intros s _. apply keeps_handle_refl. Qed.

Lemma hands_off_raise {A} (h : Handle) (e : exception) : hands_off h (@raise A e).
Proof. intros s _. apply keeps_handle_refl. Qed.

Lemma hands_off_get (h : Handle) (var : ContextVar) : hands_off h (ContextVar_get var).
Proof. intros s _. rewrite ContextVar_get_state. apply keeps_handle_refl. Qed.

Lemma hands_off_set (h : Handle) (var : ContextVar) (v : value) :
  hands_off h (ContextVar_set var v).
Proof.
  intros s Ha. split; [done|]. intros token Htk. simpl.
  destruct (Ha token Htk) as [t Hl]. rewrite Hl. by apply lookup_app_l_Some.
Qed.

Lemma hands_off_reset (h : Handle) (var : ContextVar) (token : Token) :
  ttoken h <> Some token -> stoken h <> Some token ->
  hands_off h (ContextVar_reset var token).
Proof.
  intros Ht Hs s _.
  split; [by apply ContextVar_reset_other with (i := token + 1); lia|].
  intros i Hi. apply ContextVar_reset_other. destruct Hi; congruence.
Qed.

Lemma hands_off_bind {A B} (h : Handle) (m : M A) (k : A -> M B) :
  hands_off h m -> (forall a, hands_off h (k a)) -> hands_off h (bind m k).
Proof.
  intros Hm Hk s Ha. pose proof (Hm s Ha) as Hms. unfold bind.
  destruct (m s) as [[a|e] s1]; simpl in *; [|done].
  eapply keeps_handle_trans; [done|]. apply Hk.
  by eapply keeps_handle_allocated.
Qed.

Lemma hands_off_try_finally {A} (h : Handle) (m : M A) (fin : M unit) :
  hands_off h m -> hands_off h fin -> hands_off h (try_finally m fin).
Proof.
  intros Hm Hf s Ha. pose proof (Hm s Ha) as Hms. unfold try_finally.
  destruct (m s) as [r s1]; simpl in *.
  pose proof (Hf s1 (keeps_handle_allocated _ _ _ Ha Hms)) as Hfs.
  destruct (fin s1) as [[u|e] s2]; simpl in *; by eapply keeps_handle_trans.
Qed.

Lemma hands_off_balanced {A} (h : Handle) (m : M A) : balanced m -> hands_off h m.
Proof.
  intros Hb s Ha. destruct (Hb s) as (Hc & _ & Ht). split; [done|].
  intros token Htk. destruct (Ha token Htk) as [t Hl]. rewrite Hl. by apply Ht.
Qed.

(** A nested [with use_span(...)] block is such code when its body is: the
    tokens it resets are its own. *)
Lemma hands_off_use_span {A} (h : Handle) (trace_id span_id : value) (body : M A) :
  hands_off h body -> hands_off h (use_span trace_id span_id body).
Proof.
  intros Hbody s Ha.
  destruct (use_span_enter_spec trace_id span_id s)
    as (h' & s1 & He & Hc1 & Hext & _ & _ & _ & Htok & Hstok).
  assert (keeps_handle h s s1) as Hk1.
  { split; [done|]. intros token Htk.
    destruct (Ha token Htk) as [t Hl]. rewrite Hl. by apply Hext. }
  assert (forall token, ttoken h' = Some token \/ stoken h' = Some token ->
            ttoken h <> Some token /\ stoken h <> Some token) as Hdisj.
  { intros token Htk'.
    assert (length (tokens s) <= token) as Hge.
    { destruct Htk' as [Htk'|Htk'].
      - destruct trace_id; [|congruence]. destruct Htok as (x & Hx & Hle & _).
        by assert (x = token) as <- by congruence.
      - destruct span_id; [|congruence]. destruct Hstok as (x & Hx & Hle & _).
        by assert (x = token) as <- by congruence. }
    split; intros Heq.
    + destruct (Ha token (or_introl Heq)) as [t Hl].
      apply lookup_lt_Some in Hl. lia.
    + destruct (Ha token (or_intror Heq)) as [t Hl].
      apply lookup_lt_Some in Hl. lia. }
  assert (hands_off h (use_span_exit h')) as Hexit.
  { unfold use_span_exit. apply hands_off_bind; [|intros _].
    - destruct (stoken h') as [tk|] eqn:E; simpl; [|apply hands_off_ret].
      apply hands_off_reset; by apply Hdisj; right.
    - destruct (ttoken h') as [tk|] eqn:E; simpl; [|apply hands_off_ret].
      apply hands_off_reset; by apply Hdisj; left. }
  unfold use_span, bind. rewrite He.
  eapply keeps_handle_trans; [exact Hk1|].
  apply hands_off_try_finally; [done..|].
  by eapply keeps_handle_allocated.
Qed.

Lemma use_span_balanced {A} (trace_id span_id : value) (body : M A) :
  balanced body -> balanced (use_span trace_id span_id body).
Proof.
  intros Hb s.
  destruct (use_span_enter_spec trace_id span_id s)
    as (h & s1 & He & Hc1 & Hext & Hst & Hss & Hso & _).
  destruct (body s1) as [r s2] eqn:Hbody.
  destruct (Hb s1) as (Hc2 & Hv2 & Ht2). rewrite Hbody in Hc2, Hv2, Ht2.
  simpl in Hc2, Hv2, Ht2.
  destruct (use_span_run trace_id span_id body s s1 s2 h r He Hbody)
    as (s3 & Hrun & _ & Hc3 & Hvt & Hvs & Hvo & Hlen & Htoks).
  { pose proof (hands_off_balanced h body Hb s1
                  (use_span_enter_allocated _ _ _ _ _ He)) as Hk.
    by rewrite Hbody in Hk. }
  rewrite Hrun. simpl. split; [done|]. split.
  - apply map_eq. intros var. fold (slot var s3). fold (slot var s).
    assert (slot var s2 = slot var s1) as Heq by (unfold slot; by rewrite Hv2).
    destruct (decide (var = _TRACE_ID)) as [->|Hn1].
    { rewrite Hvt. destruct trace_id; [done|]. by rewrite Heq. }
    destruct (decide (var = _SPAN_ID)) as [->|Hn2].
    { rewrite Hvs. destruct span_id; [done|]. by rewrite Heq. }
    rewrite Hvo, Heq by done. by apply Hso.
  - intros i t Hi. rewrite Htoks by (by eapply lookup_lt_Some).
    by apply Ht2, Hext.
Qed.

Lemma nested_balanced {A} (acts : list (value * value)) (body : M A) :
  balanced body -> balanced (nested acts body).
Proof.
  intros Hb. induction acts as [|[t sp] acts IH]; [done|].
  simpl. by apply use_span_balanced.
Qed.

(** The outcome of a [with] block whose body is balanced is the outcome of
    the body. *)
Lemma use_span_outcome {A} (trace_id span_id : value) (body : M A) (s : State) :
  balanced body ->
  (use_span trace_id span_id body s).1
    = (body (use_span_enter trace_id span_id s).2).1.
Proof.
  intros Hb.
  destruct (use_span_enter_spec trace_id span_id s) as (h & s1 & He & _).
  destruct (body s1) as [r s2] eqn:Hbody.
  destruct (use_span_run trace_id span_id body s s1 s2 h r He Hbody)
    as (s3 & Hrun & _).
  { pose proof (hands_off_balanced h body Hb s1
                  (use_span_enter_allocated _ _ _ _ _ He)) as Hk.
    by rewrite Hbody in Hk. }
  rewrite Hrun, He. simpl. by rewrite Hbody.
Qed.

(** ** The model on concrete runs *)

Example test_context_manager_sets_and_resets_sync :
  current get_trace_id initial_state = Return None
  /\ current get_span_id initial_state = Return None
  /\ (use_span (Some "t1") (Some "s1") get_ids initial_state).1
     = Return (Some "t1", Some "s1")
  /\ current get_trace_id
       (use_span (Some "t1") (Some "s1") get_ids initial_state).2 = Return None
  /\ current get_span_id
       (use_span (Some "t1") (Some "s1") get_ids initial_state).2 = Return None.
Proof. vm_compute. done. Qed.

(** An argument left None shows the enclosing activation's value. *)
Example inner_span_only_ids :
  (inner_span_only initial_state).1 = Return (Some "t1", Some "s2").
Proof. vm_compute. done. Qed.

(** A Token resets once; it resets only its own variable. *)
Example reset_twice_raises :
  ((reset_trace_id 0 ;;; reset_trace_id 0) outer_state).1 = Raise RuntimeError.
Proof. vm_compute. done. Qed.

Example reset_other_variable_raises :
  (reset_span_id 0 outer_state).1 = Raise ValueError
  /\ (reset_span_id 0 outer_state).2 = outer_state.
Proof. vm_compute. done. Qed.

(** A Token made in one Context is refused in another. *)
Example reset_in_other_context_raises :
  (reset_trace_id 0 {| ctx_id := 1; ctx_vars := ctx_vars outer_state;
                       tokens := tokens outer_state |}).1 = Raise ValueError.
Proof. vm_compute. done. Qed.

(** [use_span] restores only what it set: a trace id the body binds while
    the block was entered with [trace_id=None] stays bound. *)
Example use_span_leaves_unset_field_to_body :
  current get_trace_id (use_span None (Some "s1") leaking_body initial_state).2
    = Return (Some "leak")
  /\ current get_span_id (use_span None (Some "s1") leaking_body initial_state).2
     = Return None.
Proof. vm_compute. done. Qed.

(** ** The claims about [use_span] and the getters/setters *)





(** C2: right after entering [use_span(trace_id, span_id)] each getter
    returns the activated id when the argument is not None and the value it
    returned before the activation otherwise; a body that reads both ids
    gets exactly these. *)
Theorem use_span_getters_while_held (trace_id span_id : value) (s : State) :
  exists h s1 t0 sp0,
    use_span_enter trace_id span_id s = (Return h, s1)
    /\ current get_trace_id s = Return t0
    /\ current get_span_id s = Return sp0
    /\ current get_trace_id s1
       = Return (match trace_id with Some _ => trace_id | None => t0 end)
    /\ current get_span_id s1
       = Return (match span_id with Some _ => span_id | None => sp0 end)
    /\ (use_span trace_id span_id get_ids s).1
       = Return (match trace_id with Some _ => trace_id | None => t0 end,
                 match span_id with Some _ => span_id | None => sp0 end).
Proof.
  destruct (use_span_enter_spec trace_id span_id s)
    as (h & s1 & He & _ & _ & Ht1 & Hs1 & _).
  destruct (get_ids_returns s) as (t0 & sp0 & _ & Hgt & Hgs).
  exists h, s1, t0, sp0. split; [done|]. split; [done|]. split; [done|].
  assert (current get_trace_id s1
          = Return (match trace_id with Some _ => trace_id | None => t0 end)) as Ht.
  { destruct trace_id as [t|].
    - unfold current, get_trace_id. by rewrite (ContextVar_get_bound _ _ _ Ht1).
    - rewrite <- Hgt. by apply current_get_slot. }
  assert (current get_span_id s1
          = Return (match span_id with Some _ => span_id | None => sp0 end)) as Hs.
  { destruct span_id as [sp|].
    - unfold current, get_span_id. by rewrite (ContextVar_get_bound _ _ _ Hs1).
    - rewrite <- Hgs. by apply current_get_slot. }
  split; [done|]. split; [done|].
  rewrite use_span_outcome by apply get_ids_balanced. rewrite He. simpl.
  destruct (get_ids_returns s1) as (t1 & sp1 & -> & Hgt1 & Hgs1). simpl.
  congruence.
Qed.

(** C3: after any finite nesting of activations, with any arguments, has
    been left again (innermost first, as nested [with] blocks are), the
    Context holds the bindings it held before and both getters return what
    they returned before. *)
Theorem nested_use_span_reversible (acts : list (value * value)) (s : State) :
  exists s',
    nested acts (ret tt) s = (Return tt, s')
    /\ ctx_vars s' = ctx_vars s
    /\ current get_trace_id s' = current get_trace_id s
    /\ current get_span_id s' = current get_span_id s.
Proof.
  assert (balanced (nested acts (ret tt))) as Hb
    by apply nested_balanced, ret_balanced.
  assert ((nested acts (ret tt) s).1 = Return tt) as Hr.
  { revert s. induction acts as [|[t sp] acts IH]; intros s; [done|].
    simpl. rewrite use_span_outcome by apply nested_balanced, ret_balanced.
    apply IH. apply nested_balanced, ret_balanced. }
  destruct (Hb s) as (_ & Hv & _).
  destruct (nested acts (ret tt) s) as [r s'] eqn:Hn. simpl in *. subst r.
  exists s'. split; [done|]. split; [done|].
  split; apply current_get_slot; unfold slot; by rewrite Hv.
Qed.

(** C8: [use_span()] with both arguments None sets nothing: entering leaves
    the state as it is with no token taken, the block is its body, and the
    getters return inside the scope and after it what they returned before. *)
Theorem use_span_none_none_identity {A} (body : M A) (s : State) :
  use_span_enter None None s = (Return {| ttoken := None; stoken := None |}, s)
  /\ use_span None None body s = body s
  /\ use_span None None get_ids s = get_ids s
  /\ (use_span None None (ret tt) s).2 = s
  /\ current get_trace_id (use_span None None (ret tt) s).2
     = current get_trace_id s
  /\ current get_span_id (use_span None None (ret tt) s).2
     = current get_span_id s.
Proof.
  assert (forall B (m : M B), use_span None None m s = m s) as Hid.
  { intros B m. unfold use_span, bind, try_finally. simpl.
    by destruct (m s) as [r s']. }
  split; [done|]. split; [apply Hid|]. split; [apply Hid|].
  rewrite Hid. done.
Qed.

(** C10: setting or resetting the trace id, with any value and any token,
    leaves the span id binding and what [get_span_id] returns unchanged, and
    the other way round. *)
Theorem trace_and_span_slots_independent (v : value) (token : Token) (s : State) :
  (slot _SPAN_ID (set_trace_id v s).2 = slot _SPAN_ID s
   /\ current get_span_id (set_trace_id v s).2 = current get_span_id s)
  /\ (slot _SPAN_ID (reset_trace_id token s).2 = slot _SPAN_ID s
      /\ current get_span_id (reset_trace_id token s).2 = current get_span_id s)
  /\ (slot _TRACE_ID (set_span_id v s).2 = slot _TRACE_ID s
      /\ current get_trace_id (set_span_id v s).2 = current get_trace_id s)
  /\ (slot _TRACE_ID (reset_span_id token s).2 = slot _TRACE_ID s
      /\ current get_trace_id (reset_span_id token s).2 = current get_trace_id s).
Proof.
  pose proof _TRACE_ID_neq_SPAN_ID as Hne.
  assert (_SPAN_ID <> _TRACE_ID) as Hne' by done.
  assert (forall var s1 s2, slot var s1 = slot var s2 ->
            slot var s1 = slot var s2
            /\ current (ContextVar_get var) s1 = current (ContextVar_get var) s2) as Hboth.
  { intros var s1 s2 Heq. split; [done|by apply current_get_slot]. }
  split; [apply Hboth; by apply ContextVar_set_slot_ne|].
  split; [apply Hboth; by apply ContextVar_reset_frame|].
  split; [apply Hboth; by apply ContextVar_set_slot_ne|].
  apply Hboth; by apply ContextVar_reset_frame.
Qed.

(** C4: in every state, for every value (None included) and all arguments,
    the getters, the setters, a reset with a valid token and the activation
    of [use_span] return normally; a getter whose variable has no binding
    returns None. *)
Theorem context_ops_never_raise (v trace_id span_id : value) (s : State) :
  (exists r, get_trace_id s = (Return r, s))
  /\ (exists r, get_span_id s = (Return r, s))
  /\ (slot _TRACE_ID s = None -> get_trace_id s = (Return None, s))
  /\ (slot _SPAN_ID s = None -> get_span_id s = (Return None, s))
  /\ (exists token s', set_trace_id v s = (Return token, s'))
  /\ (exists token s', set_span_id v s = (Return token, s'))
  /\ (forall token, valid_token _TRACE_ID token s ->
        exists s', reset_trace_id token s = (Return tt, s'))
  /\ (forall token, valid_token _SPAN_ID token s ->
        exists s', reset_span_id token s = (Return tt, s'))
  /\ (exists h s', use_span_enter trace_id span_id s = (Return h, s'))
  /\ (exists s', use_span trace_id span_id (ret tt) s = (Return tt, s')).
Proof.
  destruct (get_ids_returns s) as (t0 & sp0 & _ & Hgt & Hgs).
  unfold current in Hgt, Hgs.
  pose proof (ContextVar_get_state _TRACE_ID s) as Hst.
  pose proof (ContextVar_get_state _SPAN_ID s) as Hss.
  split. { exists t0. fold get_trace_id in Hst. destruct (get_trace_id s); simpl in *; congruence. }
  split. { exists sp0. fold get_span_id in Hss. destruct (get_span_id s); simpl in *; congruence. }
  split. { unfold get_trace_id, ContextVar_get, slot. by intros ->. }
  split. { unfold get_span_id, ContextVar_get, slot. by intros ->. }
  split; [by eexists _, _|]. split; [by eexists _, _|].
  split.
  { intros token Hv.
    destruct (ContextVar_reset_token_spec _ _ _ Hv) as (t & s' & _ & Hr & _).
    by exists s'. }
  split.
  { intros token Hv.
    destruct (ContextVar_reset_token_spec _ _ _ Hv) as (t & s' & _ & Hr & _).
    by exists s'. }
  split.
  { destruct (use_span_enter_spec trace_id span_id s) as (h & s1 & He & _).
    by exists h, s1. }
  pose proof (use_span_outcome trace_id span_id (ret tt) s (ret_balanced tt)) as Ho.
  destruct (use_span trace_id span_id (ret tt) s) as [r s'].
  simpl in Ho. subst r. by exists s'.
Qed.

(** ** The theorems at concrete runs *)





Lemma context_ops_never_raise_witness :
  valid_token _TRACE_ID 0 outer_state
  /\ (exists s', reset_trace_id 0 outer_state = (Return tt, s'))
  /\ get_span_id outer_state = (Return None, outer_state).
Proof.
  assert (valid_token _TRACE_ID 0 outer_state) as Hv.
  { eexists. split; [reflexivity|]. repeat split. }
  split; [exact Hv|].
  destruct (context_ops_never_raise None None None outer_state)
    as (_ & _ & _ & Hg & _ & _ & Hr & _).
  split; [exact (Hr 0 Hv)|]. apply Hg. reflexivity.
Defined.

(** ** ids.py: the span-id format *)

Local Open Scope Z_scope.

Lemma hex_value_hex_char (d : Z) : 0 <= d < 16 -> hex_value (hex_char d) = Some d.
Proof.
  intros Hd.
  assert (exists n : nat, (n < 16)%nat /\ d = Z.of_nat n) as (n & Hn & ->).
  { exists (Z.to_nat d). lia. }
  do 16 (destruct n as [|n]; [reflexivity|]). lia.
Qed.

Lemma hex_digits_length (width : nat) (x : Z) (acc : string) :
  String.length (hex_digits width x acc) = (width + String.length acc)%nat.
Proof.
  revert x acc. induction width as [|w IH]; intros x acc; simpl; [done|].
  rewrite IH. simpl. lia.
Qed.

Lemma hex_digits_chars (width : nat) (x : Z) (acc : string) :
  forallb (fun c => bool_decide (is_Some (hex_value c)))
          (String.list_ascii_of_string acc) = true ->
  forallb (fun c => bool_decide (is_Some (hex_value c)))
          (String.list_ascii_of_string (hex_digits width x acc)) = true.
Proof.
  revert x acc. induction width as [|w IH]; intros x acc Hacc; simpl; [done|].
  apply IH. simpl. rewrite Hacc, andb_true_r.
  apply bool_decide_eq_true_2.
  rewrite hex_value_hex_char by (apply Z.mod_pos_bound; lia). by eexists.
Qed.

Lemma int16_from_hex_digits (width : nat) (x a : Z) (acc : string) :
  0 <= x < 16 ^ Z.of_nat width ->
  int16_from (hex_digits width x acc) a
    = int16_from acc (a * 16 ^ Z.of_nat width + x).
Proof.
  revert x a acc. induction width as [|w IH]; intros x a acc Hx.
  - simpl in *. f_equal. lia.
  - rewrite Nat2Z.inj_succ, Z.pow_succ_r in * by lia.
    simpl hex_digits. rewrite IH.
    2:{ split; [apply Z.div_pos; lia|]. apply Z.div_lt_upper_bound; lia. }
    simpl. rewrite hex_value_hex_char by (apply Z.mod_pos_bound; lia).
    f_equal. pose proof (Z.div_mod x 16). lia.
Qed.

(** C6: whatever the random source delivers, the generated span id consists
    of exactly 16 lowercase hexadecimal digits, reads back as a 64-bit value
    and is not zero. *)
Theorem span_id_format_and_nonzero (draw : Z) :
  HEX16_match (span_id draw) = true
  /\ String.length (span_id draw) = 16%nat
  /\ (exists x, int16 (span_id draw) = Some x /\ 0 < x < 2 ^ 64)
  /\ span_id draw <> "0000000000000000"%string.
Proof.
  unfold span_id.
  set (x := if draw mod 2 ^ 64 =? 0 then 1 else draw mod 2 ^ 64).
  assert (0 < x < 2 ^ 64) as Hx.
  { subst x. pose proof (Z.mod_pos_bound draw (2 ^ 64)).
    destruct (Z.eqb_spec (draw mod 2 ^ 64) 0); lia. }
  clearbody x.
  assert (int16 (hex_digits 16 x "") = Some x) as Hint.
  { unfold int16. rewrite int16_from_hex_digits by (simpl; lia). done. }
  assert (String.length (hex_digits 16 x "") = 16%nat) as Hlen
    by (by rewrite hex_digits_length).
  split.
  { unfold HEX16_match. rewrite Hlen, hex_digits_chars by done. done. }
  split; [done|]. split; [by exists x|].
  intros Heq. rewrite Heq in Hint.
  assert (int16 "0000000000000000" = Some 0) as Hzero by reflexivity.
  rewrite Hzero in Hint. injection Hint as Hz. lia.
Qed.

Local Close Scope Z_scope.

(** ** core/async_collector.py: the bounded queue *)

Section CollectorFacts.
Context {Event : Type}.
Implicit Types (c : AsyncCollector Event) (e : Event) (l es : list Event).

Lemma last_n_length (n : nat) (l : list Event) :
  length (last_n n l) = min n (length l).
Proof. unfold last_n. rewrite length_drop. lia. Qed.

Lemma last_n_app (n : nat) (l es : list Event) :
  last_n n (last_n n l ++ es) = last_n n (l ++ es).
Proof.
  unfold last_n at 1 3. rewrite !length_app, last_n_length.
  unfold last_n.
  replace (length l + length es - n)
    with ((length l - n) + (n `min` length l + length es - n)) by lia.
  rewrite <- drop_drop. f_equal.
  rewrite drop_app_le by lia. done.
Qed.

Lemma enqueue_queue (c : AsyncCollector Event) (e : Event) :
  closed c = false -> 0 < queue_size c -> length (queue c) <= queue_size c ->
  queue (enqueue c e) = last_n (queue_size c) (queue c ++ [e]).
Proof.
  intros Hopen Hpos Hlen. unfold enqueue, last_n. rewrite Hopen. simpl.
  rewrite length_app. simpl. case_bool_decide as Hfull.
  - replace (length (queue c) + 1 - queue_size c) with 1 by lia.
    rewrite drop_app_le; [done|]. lia.
  - replace (length (queue c) + 1 - queue_size c) with 0 by lia. done.
Qed.

Lemma enqueue_all_queue (es : list Event) (c : AsyncCollector Event) :
  closed c = false -> 0 < queue_size c -> length (queue c) <= queue_size c ->
  queue (enqueue_all c es) = last_n (queue_size c) (queue c ++ es)
  /\ queue_size (enqueue_all c es) = queue_size c
  /\ closed (enqueue_all c es) = false.
Proof.
  revert c. induction es as [|e es IH]; intros c Hopen Hpos Hlen.
  - simpl. rewrite app_nil_r. unfold last_n.
    replace (length (queue c) - queue_size c) with 0 by lia. done.
  - simpl. pose proof (enqueue_queue c e Hopen Hpos Hlen) as Hq.
    assert (queue_size (enqueue c e) = queue_size c) as Hsz
      by (unfold enqueue; rewrite Hopen; done).
    assert (closed (enqueue c e) = false) as Hopen'
      by (unfold enqueue; rewrite Hopen; done).
    destruct (IH (enqueue c e)) as (IHq & IHs & IHc).
    { done. }
    { by rewrite Hsz. }
    { rewrite Hq, Hsz, last_n_length. lia. }
    unfold enqueue_all in *. rewrite IHq, IHs, Hq, Hsz.
    rewrite last_n_app, <- (assoc_L (++)). done.
Qed.

(** The hypotheses of the queue properties hold of every collector built
    by the constructor and are kept by [enqueue] and [drain]. *)
Lemma AsyncCollector_new_bounded (capacity : nat) (c : AsyncCollector Event) :
  AsyncCollector_new capacity = Some c ->
  closed c = false /\ 0 < queue_size c /\ length (queue c) <= queue_size c.
Proof.
  destruct capacity as [|n]; [done|]. intros [= <-]. simpl. repeat split; lia.
Qed.

Lemma enqueue_bounded (c : AsyncCollector Event) (e : Event) :
  0 < queue_size c -> length (queue c) <= queue_size c ->
  queue_size (enqueue c e) = queue_size c
  /\ closed (enqueue c e) = closed c
  /\ length (queue (enqueue c e)) <= queue_size c.
Proof.
  intros Hpos Hlen. unfold enqueue. destruct (closed c) eqn:Hc; [by rewrite Hc|].
  simpl. split; [done|]. split; [done|].
  rewrite length_app. simpl. case_bool_decide.
  - rewrite length_drop. lia.
  - lia.
Qed.

Lemma drain_bounded (c : AsyncCollector Event) :
  queue_size (drain c).2 = queue_size c
  /\ closed (drain c).2 = closed c
  /\ length (queue (drain c).2) <= queue_size c.
Proof. simpl. repeat split. lia. Qed.

(** After [close] an event is dropped, not queued. *)
Lemma enqueue_closed (c : AsyncCollector Event) (e : Event) :
  closed c = true -> enqueue c e = c.
Proof. unfold enqueue. by intros ->. Qed.

(** C7: a collector with a positive capacity N whose queue holds at most N
    events keeps holding at most N through any run of enqueues; an enqueue
    at capacity drops the oldest event and appends the new one; and after
    M > N enqueues without a flush the next flush takes exactly the N most
    recently enqueued events, in order. *)
Theorem queue_bounded_drop_oldest (c : AsyncCollector Event) (es : list Event) :
  closed c = false -> 0 < queue_size c -> length (queue c) <= queue_size c ->
  (forall k, length (queue (enqueue_all c (take k es))) <= queue_size c)
  /\ (forall e, length (queue c) = queue_size c ->
                queue (enqueue c e) = drop 1 (queue c) ++ [e])
  /\ (queue_size c < length es ->
      (drain (enqueue_all c es)).1 = drop (length es - queue_size c) es
      /\ length (drain (enqueue_all c es)).1 = queue_size c).
Proof.
  intros Hopen Hpos Hlen. split; [|split].
  - intros k.
    destruct (enqueue_all_queue (take k es) c Hopen Hpos Hlen) as (-> & _).
    rewrite last_n_length. lia.
  - intros e Hfull. unfold enqueue. rewrite Hopen. simpl.
    rewrite bool_decide_eq_true_2 by lia. done.
  - intros Hmore. simpl.
    destruct (enqueue_all_queue es c Hopen Hpos Hlen) as (-> & _).
    assert (last_n (queue_size c) (queue c ++ es)
            = drop (length es - queue_size c) es) as ->.
    { unfold last_n. rewrite length_app.
      replace (length (queue c) + length es - queue_size c)
        with (length (queue c) + (length es - queue_size c)) by lia.
      apply drop_app_add. }
    split; [done|]. rewrite length_drop. lia.
Qed.

End CollectorFacts.

Lemma queue_bounded_drop_oldest_witness :
  (drain (enqueue_all {| queue := ["a"; "b"]; queue_size := 3; closed := false |}
                      ["c"; "d"; "e"; "f"])).1 = ["d"; "e"; "f"].
Proof.
  apply (queue_bounded_drop_oldest
           {| queue := ["a"; "b"]; queue_size := 3; closed := false |}
           ["c"; "d"; "e"; "f"]); simpl; lia || reflexivity.
Defined.

(** * Further properties of context.py *)

(** ** Setters and reset helpers used by hand *)

Lemma ContextVar_set_token (var : ContextVar) (v : value) (s : State) :
  exists s1,
    ContextVar_set var v s = (Return (length (tokens s)), s1)
    /\ ctx_id s1 = ctx_id s
    /\ ctx_vars s1 = <[var := v]> (ctx_vars s)
    /\ tokens s1 = tokens s ++ [fresh_token var s]
    /\ valid_token var (length (tokens s)) s1.
Proof.
  eexists. split; [reflexivity|]. simpl. do 3 (split; [done|]).
  exists (fresh_token var s). split; [by apply list_lookup_middle|done].
Qed.

Lemma valid_token_kept (var : ContextVar) (token : Token) (s s' : State) :
  valid_token var token s ->
  tokens s' !! token = tokens s !! token -> ctx_id s' = ctx_id s ->
  valid_token var token s'.
Proof.
  intros (t & Hl & Hu & Hv & Hc) Ht Hctx. exists t.
  rewrite Ht, Hctx. done.
Qed.

(** A reset after the matching set, whatever was bound in between. *)
Lemma ContextVar_set_reset (var : ContextVar) (v : value) (s s' : State) :
  tokens s' !! length (tokens s)
    = tokens (ContextVar_set var v s).2 !! length (tokens s) ->
  ctx_id s' = ctx_id s ->
  exists s'',
    ContextVar_reset var (length (tokens s)) s' = (Return tt, s'')
    /\ slot var s'' = slot var s
    /\ current (ContextVar_get var) s'' = current (ContextVar_get var) s
    /\ (forall var', var <> var' -> slot var' s'' = slot var' s')
    /\ (ctx_vars s' = ctx_vars (ContextVar_set var v s).2 ->
        ctx_vars s'' = ctx_vars s).
Proof.
  intros Htok Hctx.
  destruct (ContextVar_set_token var v s) as (s1 & Hset & Hc1 & Hv1 & Ht1 & Hval).
  rewrite Hset in Htok. simpl in Htok.
  assert (valid_token var (length (tokens s)) s') as Hval'
    by (eapply valid_token_kept; [exact Hval|done|congruence]).
  destruct (ContextVar_reset_token_spec _ _ _ Hval')
    as (t & s'' & Hl & Hr & Hc'' & Hslot & Hother & _).
  assert (t = fresh_token var s) as ->.
  { rewrite Htok, Ht1, list_lookup_middle in Hl by done. congruence. }
  exists s''. split; [done|]. split; [done|].
  split; [by apply current_get_slot|]. split; [done|].
  intros Hvars. apply map_eq. intros k. fold (slot k s'') (slot k s).
  destruct (decide (var = k)) as [<-|Hne]; [done|].
  rewrite Hother by done. unfold slot.
  rewrite Hvars, Hset. simpl. rewrite Hv1. by rewrite lookup_insert_ne.
Qed.

(** X1: what a setter binds is what the getter of the same id returns next,
    for every value, None included. *)
Theorem set_then_get_returns_value (v : value) (s : State) :
  ((set_trace_id v ;;; get_trace_id) s).1 = Return v
  /\ ((set_span_id v ;;; get_span_id) s).1 = Return v.
Proof.
  split; unfold bind; simpl;
    unfold get_trace_id, get_span_id, ContextVar_get; simpl;
    by rewrite lookup_insert_eq.
Qed.

(** X2: resetting with the token a setter returned puts the id back to its
    binding from before that set, whatever has been bound to it since, as
    long as the token is unspent and the Context is the same; when nothing
    was rebound in between, the whole Context is as before the set. *)
Theorem reset_undoes_its_set (v : value) (s s' : State) :
  ctx_id s' = ctx_id s ->
  (tokens s' !! length (tokens s)
     = tokens (set_trace_id v s).2 !! length (tokens s) ->
   exists s'',
     reset_trace_id (length (tokens s)) s' = (Return tt, s'')
     /\ (set_trace_id v s).1 = Return (length (tokens s))
     /\ slot _TRACE_ID s'' = slot _TRACE_ID s
     /\ current get_trace_id s'' = current get_trace_id s
     /\ slot _SPAN_ID s'' = slot _SPAN_ID s'
     /\ (ctx_vars s' = ctx_vars (set_trace_id v s).2 -> ctx_vars s'' = ctx_vars s))
  /\ (tokens s' !! length (tokens s)
        = tokens (set_span_id v s).2 !! length (tokens s) ->
      exists s'',
        reset_span_id (length (tokens s)) s' = (Return tt, s'')
        /\ (set_span_id v s).1 = Return (length (tokens s))
        /\ slot _SPAN_ID s'' = slot _SPAN_ID s
        /\ current get_span_id s'' = current get_span_id s
        /\ slot _TRACE_ID s'' = slot _TRACE_ID s'
        /\ (ctx_vars s' = ctx_vars (set_span_id v s).2 -> ctx_vars s'' = ctx_vars s)).
Proof.
  pose proof _TRACE_ID_neq_SPAN_ID as Hne.
  intros Hctx. split; intros Htok.
  - destruct (ContextVar_set_reset _TRACE_ID v s s' Htok Hctx)
      as (s'' & Hr & Hs & Hg & Ho & Hall).
    exists s''. repeat split; try done. by apply Ho.
  - destruct (ContextVar_set_reset _SPAN_ID v s s' Htok Hctx)
      as (s'' & Hr & Hs & Hg & Ho & Hall).
    exists s''. repeat split; try done. by apply Ho.
Qed.

Lemma reset_undoes_its_set_witness :
  exists s'',
    reset_trace_id 1 rebound_state = (Return tt, s'')
    /\ current get_trace_id rebound_state = Return (Some "y")
    /\ current get_trace_id s'' = Return (Some "outer").
Proof.
  destruct (reset_undoes_its_set (Some "x") outer_state rebound_state)
    as [Ht _]; [reflexivity|].
  destruct Ht as (s'' & Hr & _ & _ & Hg & _); [reflexivity|].
  exists s''. split; [exact Hr|]. split; [reflexivity|].
  rewrite Hg. reflexivity.
Defined.

Lemma ContextVar_reset_spent (var : ContextVar) (token' token : Token) (s : State) :
  spent token s -> spent token (ContextVar_reset var token' s).2.
Proof.
  intros (t & Hl & Hu). unfold ContextVar_reset.
  destruct (tokens s !! token') as [t'|] eqn:Hl'; [|by exists t].
  destruct (tok_used t'); [by exists t|].
  destruct (negb (bool_decide (tok_var t' = var))); [by exists t|].
  destruct (negb (bool_decide (tok_ctx t' = ctx_id s))); [by exists t|].
  simpl. destruct (decide (token' = token)) as [->|Hne].
  - exists (mark_used t'). split; [|done].
    apply list_lookup_insert_eq. by eapply lookup_lt_Some.
  - exists t. split; [|done]. simpl. by rewrite list_lookup_insert_ne.
Qed.

Lemma ContextVar_set_spent (var : ContextVar) (v : value) (token : Token) (s : State) :
  spent token s -> spent token (ContextVar_set var v s).2.
Proof.
  intros (t & Hl & Hu). exists t. split; [|done]. simpl.
  by apply lookup_app_l_Some.
Qed.

(** No call into context.py makes a spent token usable again. *)
Lemma call_state_spent (c : Call) (token : Token) (s : State) :
  spent token s -> spent token (call_state c s).
Proof.
  intros Hsp. destruct c as [| |v|v|tok|tok|t sp|h]; simpl.
  - unfold get_trace_id. by rewrite ContextVar_get_state.
  - unfold get_span_id. by rewrite ContextVar_get_state.
  - by apply ContextVar_set_spent.
  - by apply ContextVar_set_spent.
  - by apply ContextVar_reset_spent.
  - by apply ContextVar_reset_spent.
  - destruct (use_span_enter_spec t sp s) as (h & s1 & -> & _ & Hext & _).
    destruct Hsp as (t0 & Hl & Hu). exists t0. split; [|done]. by apply Hext.
  - unfold use_span_exit, bind.
    assert (spent token (when_some (stoken h) reset_span_id s).2) as Hsp1.
    { destruct (stoken h) as [tok|]; simpl; [|done].
      by apply ContextVar_reset_spent. }
    destruct (when_some (stoken h) reset_span_id s) as [[u|e] s1]; simpl in *;
      [|done].
    destruct (ttoken h) as [tok|]; simpl; [|done].
    by apply ContextVar_reset_spent.
Qed.

Lemma after_calls_spent (calls : list Call) (token : Token) (s : State) :
  spent token s -> spent token (after_calls calls s).
Proof.
  revert s. induction calls as [|c calls IH]; intros s Hsp; [done|].
  simpl. apply IH. by apply call_state_spent.
Qed.

(** X3: a token is spent by the reset that succeeds with it: after any
    further calls into context.py (getters, setters, resets with any token,
    entering and leaving [use_span] blocks), every reset with it, through
    either helper, raises RuntimeError and changes nothing. *)
Theorem token_is_single_use (token : Token) (s s' : State) (calls : list Call) :
  reset_trace_id token s = (Return tt, s')
  \/ reset_span_id token s = (Return tt, s') ->
  reset_trace_id token (after_calls calls s')
    = (Raise RuntimeError, after_calls calls s')
  /\ reset_span_id token (after_calls calls s')
     = (Raise RuntimeError, after_calls calls s').
Proof.
  intros Hr.
  assert (spent token s') as Hsp.
  { unfold reset_trace_id, reset_span_id, ContextVar_reset in Hr.
    destruct Hr as [Hr|Hr];
      (destruct (tokens s !! token) as [t|] eqn:Hl; [|done]);
      (destruct (tok_used t); [done|]);
      (destruct (negb (bool_decide (tok_var t = _))); [done|]);
      (destruct (negb (bool_decide (tok_ctx t = ctx_id s))); [done|]);
      injection Hr as <-; exists (mark_used t); (split; [|done]); simpl;
      apply list_lookup_insert_eq; by eapply lookup_lt_Some. }
  destruct (after_calls_spent calls token s' Hsp) as (t & Hl & Hu).
  unfold reset_trace_id, reset_span_id, ContextVar_reset.
  rewrite Hl, Hu. done.
Qed.

Lemma token_is_single_use_witness :
  (reset_trace_id 0
     (after_calls [SetTraceId (Some "again"); EnterSpan None (Some "s1");
                   ResetSpanId 0; GetTraceId]
        (reset_trace_id 0 outer_state).2)).1
    = Raise RuntimeError.
Proof.
  destruct (token_is_single_use 0 outer_state (reset_trace_id 0 outer_state).2
              [SetTraceId (Some "again"); EnterSpan None (Some "s1");
               ResetSpanId 0; GetTraceId]) as [Ht _].
  - left. reflexivity.
  - rewrite Ht. reflexivity.
Defined.

(** X4: a reset that raises leaves the state exactly as it was, and what it
    raises is TypeError (not a token), RuntimeError (spent token) or
    ValueError (token of the other id or of another Context). *)
Theorem failed_reset_changes_nothing (token : Token) (s s' : State) (e : exception) :
  reset_trace_id token s = (Raise e, s') \/ reset_span_id token s = (Raise e, s') ->
  s' = s /\ (e = TypeError \/ e = RuntimeError \/ e = ValueError).
Proof.
  unfold reset_trace_id, reset_span_id, ContextVar_reset.
  intros [Hr|Hr];
    (destruct (tokens s !! token) as [t|]; [|injection Hr as <- <-; auto]);
    (destruct (tok_used t); [injection Hr as <- <-; auto|]);
    (destruct (negb (bool_decide (tok_var t = _))); [injection Hr as <- <-; auto|]);
    (destruct (negb (bool_decide (tok_ctx t = ctx_id s))); [injection Hr as <- <-; auto|]);
    discriminate Hr.
Qed.

Lemma failed_reset_changes_nothing_witness :
  (reset_span_id 7 outer_state).2 = outer_state.
Proof.
  destruct (failed_reset_changes_nothing 7 outer_state
              (reset_span_id 7 outer_state).2 TypeError) as [Hs _].
  - right. reflexivity.
  - exact Hs.
Defined.

(** X5: the token of one id is refused by the reset helper of the other:
    ValueError, and the binding just made stays. *)
Theorem reset_refuses_token_of_other_id (v : value) (s : State) :
  (token <- set_trace_id v ;; reset_span_id token) s
    = (Raise ValueError, (set_trace_id v s).2)
  /\ (token <- set_span_id v ;; reset_trace_id token) s
     = (Raise ValueError, (set_span_id v s).2).
Proof.
  split; unfold bind; simpl;
    unfold reset_span_id, reset_trace_id, ContextVar_reset; simpl;
    by rewrite list_lookup_middle.
Qed.

(** X6: tokens undo sets only when they are reset last-in-first-out. With
    two sets of the trace id, resetting the newer token first gives back the
    original value; resetting the older token first makes both resets
    succeed and leaves the first set's value bound. *)
Theorem manual_resets_must_be_lifo (a b : value) (s : State) :
  (set_twice_then_reset a b true s).1 = current get_trace_id s
  /\ (set_twice_then_reset a b false s).1 = Return a.
Proof.
  destruct (ContextVar_set_token _TRACE_ID a s) as (s1 & Hset1 & Hc1 & Hv1 & Ht1 & Hval1).
  destruct (ContextVar_set_token _TRACE_ID b s1) as (s2 & Hset2 & Hc2 & Hv2 & Ht2 & Hval2).
  assert (length (tokens s1) = S (length (tokens s))) as Hlen
    by (rewrite Ht1, length_app; simpl; lia).
  assert (valid_token _TRACE_ID (length (tokens s)) s2) as Hval1'.
  { eapply valid_token_kept; [exact Hval1| |done].
    rewrite Ht2. apply lookup_app_l. lia. }
  unfold set_twice_then_reset, bind, set_trace_id.
  rewrite Hset1, Hset2. split.
  - destruct (ContextVar_reset_token_spec _ _ _ Hval2)
      as (t2 & s3 & Hl2 & Hr2 & Hc3 & Hs3 & _ & Ht3).
    assert (valid_token _TRACE_ID (length (tokens s)) s3) as Hval1''.
    { eapply valid_token_kept; [exact Hval1'| |done].
      rewrite Ht3. apply list_lookup_insert_ne. lia. }
    destruct (ContextVar_reset_token_spec _ _ _ Hval1'')
      as (t1 & s4 & Hl1 & Hr1 & _ & Hs4 & _).
    unfold reset_trace_id. rewrite Hr2, Hr1.
    assert (t1 = fresh_token _TRACE_ID s) as ->.
    { rewrite Ht3, list_lookup_insert_ne in Hl1 by lia.
      rewrite Ht2, lookup_app_l, Ht1, list_lookup_middle in Hl1 by (done || lia).
      congruence. }
    apply current_get_slot. done.
  - destruct (ContextVar_reset_token_spec _ _ _ Hval1')
      as (t1 & s3 & Hl1 & Hr1 & Hc3 & _ & _ & Ht3).
    assert (valid_token _TRACE_ID (length (tokens s1)) s3) as Hval2'.
    { eapply valid_token_kept; [exact Hval2| |done].
      rewrite Ht3. apply list_lookup_insert_ne. lia. }
    destruct (ContextVar_reset_token_spec _ _ _ Hval2')
      as (t2 & s4 & Hl2 & Hr2 & _ & Hs4 & _).
    unfold reset_trace_id. rewrite Hr1, Hr2.
    assert (t2 = fresh_token _TRACE_ID s1) as ->.
    { rewrite Ht3, list_lookup_insert_ne in Hl2 by lia.
      rewrite Ht2, list_lookup_middle in Hl2 by done. congruence. }
    unfold get_trace_id. rewrite (ContextVar_get_bound _TRACE_ID a s4); [done|].
    rewrite Hs4. simpl. unfold slot. rewrite Hv1. apply lookup_insert_eq.
Qed.

(** ** Activations inside activations *)

Lemma balanced_bind {A B} (m : M A) (k : A -> M B) :
  balanced m -> (forall a, balanced (k a)) -> balanced (bind m k).
Proof.
  intros Hm Hk s. destruct (Hm s) as (Hc & Hv & Ht). unfold bind.
  destruct (m s) as [[a|e] s1]; simpl in *; [|done].
  destruct (Hk a s1) as (Hc' & Hv' & Ht').
  split; [congruence|]. split; [congruence|]. auto.
Qed.

Lemma nested_ret_returns (acts : list (value * value)) (s : State) :
  (nested acts (ret tt) s).1 = Return tt.
Proof.
  revert s. induction acts as [|[t sp] acts IH]; intros s; [done|].
  simpl. rewrite use_span_outcome by apply nested_balanced, ret_balanced.
  apply IH.
Qed.

Lemma get_ids_same_bindings (s s' : State) :
  ctx_vars s = ctx_vars s' -> (get_ids s).1 = (get_ids s').1.
Proof.
  intros Hv.
  destruct (get_ids_returns s) as (t & sp & -> & Ht & Hs).
  destruct (get_ids_returns s') as (t' & sp' & -> & Ht' & Hs').
  assert (current get_trace_id s = current get_trace_id s') as Het
    by (apply current_get_slot; unfold slot; by rewrite Hv).
  assert (current get_span_id s = current get_span_id s') as Hes
    by (apply current_get_slot; unfold slot; by rewrite Hv).
  simpl. congruence.
Qed.

Lemma use_span_enter_getters (trace_id span_id t0 sp0 : value) (s : State) :
  current get_trace_id s = Return t0 ->
  current get_span_id s = Return sp0 ->
  current get_trace_id (use_span_enter trace_id span_id s).2
    = Return (match trace_id with Some _ => trace_id | None => t0 end)
  /\ current get_span_id (use_span_enter trace_id span_id s).2
     = Return (match span_id with Some _ => span_id | None => sp0 end).
Proof.
  intros Hgt Hgs.
  destruct (use_span_enter_spec trace_id span_id s)
    as (h & s1 & He & _ & _ & Ht1 & Hs1 & _).
  rewrite He. simpl. split.
  - destruct trace_id as [t|].
    + unfold current, get_trace_id. by rewrite (ContextVar_get_bound _ _ _ Ht1).
    + rewrite <- Hgt. by apply current_get_slot.
  - destruct span_id as [sp|].
    + unfold current, get_span_id. by rewrite (ContextVar_get_bound _ _ _ Hs1).
    + rewrite <- Hgs. by apply current_get_slot.
Qed.

(** X7: once with-blocks nested inside an activation have been left, the
    getters in the enclosing block return again what they return with no
    inner block at all: an inner activation shadows, it does not overwrite. *)
Theorem inner_blocks_reexpose_outer_ids (trace_id span_id : value)
    (acts : list (value * value)) (s : State) :
  (use_span trace_id span_id (nested acts (ret tt) ;;; get_ids) s).1
    = (use_span trace_id span_id get_ids s).1.
Proof.
  assert (balanced (nested acts (ret tt))) as Hb
    by apply nested_balanced, ret_balanced.
  rewrite !use_span_outcome.
  2: apply get_ids_balanced.
  2: { apply balanced_bind; [done|]. intros _. apply get_ids_balanced. }
  set (s1 := (use_span_enter trace_id span_id s).2).
  pose proof (nested_ret_returns acts s1) as Hr.
  destruct (Hb s1) as (_ & Hv & _).
  unfold bind. destruct (nested acts (ret tt) s1) as [r s']. simpl in *.
  subst r. by apply get_ids_same_bindings.
Qed.

(** X8: the [finally] block of [use_span] run in a Context other than the
    one the activation was entered in (its tokens untouched) raises
    ValueError at its first reset and restores nothing: the state is left
    as found, for every activation that set at least one id. *)
Theorem use_span_exit_in_other_context (trace_id span_id : value)
    (s s1 s2 : State) (h : Handle) :
  use_span_enter trace_id span_id s = (Return h, s1) ->
  is_Some trace_id \/ is_Some span_id ->
  ctx_id s2 <> ctx_id s1 ->
  (forall token, ttoken h = Some token \/ stoken h = Some token ->
                 tokens s2 !! token = tokens s1 !! token) ->
  use_span_exit h s2 = (Raise ValueError, s2).
Proof.
  intros Henter Hset Hctx Hkeep.
  destruct (use_span_enter_spec trace_id span_id s)
    as (h' & s1' & He & Hc1 & _ & _ & _ & _ & Htok & Hstok).
  rewrite Henter in He. injection He as <- <-.
  assert (forall var token, tokens s2 !! token = Some (fresh_token var s) ->
            ContextVar_reset var token s2 = (Raise ValueError, s2)) as Hfail.
  { intros var token Hl. unfold ContextVar_reset. rewrite Hl. simpl.
    rewrite bool_decide_eq_true_2 by done.
    rewrite bool_decide_eq_false_2 by congruence. done. }
  unfold use_span_exit, bind.
  destruct span_id as [sp|].
  - destruct Hstok as (token & Hh & _ & Hl). rewrite Hh. simpl.
    unfold reset_span_id. rewrite Hfail; [done|].
    rewrite Hkeep by auto. done.
  - rewrite Hstok. simpl.
    destruct trace_id as [t|]; [|destruct Hset as [[? ?]|[? ?]]; done].
    destruct Htok as (token & Hh & _ & Hl). rewrite Hh. simpl.
    unfold reset_trace_id. rewrite Hfail; [done|].
    rewrite Hkeep by auto. done.
Qed.

Lemma use_span_exit_in_other_context_witness :
  use_span_exit {| ttoken := Some 1; stoken := Some 2 |}
    (in_copied_context (use_span_enter (Some "t1") (Some "s1") outer_state).2)
  = (Raise ValueError,
     in_copied_context (use_span_enter (Some "t1") (Some "s1") outer_state).2).
Proof.
  apply (use_span_exit_in_other_context (Some "t1") (Some "s1") outer_state
           (use_span_enter (Some "t1") (Some "s1") outer_state).2).
  - reflexivity.
  - left. exists "t1". reflexivity.
  - simpl. lia.
  - intros token _. reflexivity.
Defined.

(** ** examples/example_asyc_pipeline.py: [make_event] *)

Section MakeEvent.
Context {Obj : Type}.
Implicit Types (attrs : gmap string Obj) (level msg : string) (now : Z).

Lemma make_event_duplicate now level msg attrs (s : State) :
  AsyncPipeline.duplicate_keyword attrs = true ->
  AsyncPipeline.make_event now level msg attrs s = (Raise TypeError, s).
Proof. intros Hd. unfold AsyncPipeline.make_event. by rewrite Hd. Qed.

Lemma make_event_returns now level msg attrs (s : State) :
  AsyncPipeline.duplicate_keyword attrs = false ->
  exists t sp,
    current get_trace_id s = Return t
    /\ current get_span_id s = Return sp
    /\ AsyncPipeline.make_event now level msg attrs s
       = (Return (AsyncPipeline.mkEvent now t sp level msg attrs), s).
Proof.
  intros Hd. unfold AsyncPipeline.make_event. rewrite Hd.
  unfold bind, current, get_trace_id, get_span_id, ContextVar_get. simpl.
  destruct (ctx_vars s !! _TRACE_ID), (ctx_vars s !! _SPAN_ID); eauto.
Qed.

Lemma make_event_balanced now level msg attrs :
  balanced (AsyncPipeline.make_event now level msg attrs).
Proof.
  intros s. destruct (AsyncPipeline.duplicate_keyword attrs) eqn:Hd.
  - by rewrite make_event_duplicate.
  - destruct (make_event_returns now level msg attrs s Hd)
      as (t & sp & _ & _ & ->). done.
Qed.

(** X9: a call of [make_event] whose keywords include [level] or [msg]
    raises TypeError and changes nothing. Every other call returns without
    changing the state; the event holds the clock reading, level, message
    and attributes as given and the ids the getters return, None for an id
    that has no binding. *)
Theorem make_event_reads_without_effect now level msg attrs (s : State) :
  (AsyncPipeline.duplicate_keyword attrs = true ->
   AsyncPipeline.make_event now level msg attrs s = (Raise TypeError, s))
  /\ (AsyncPipeline.duplicate_keyword attrs = false ->
      exists ev,
        AsyncPipeline.make_event now level msg attrs s = (Return ev, s)
        /\ current get_trace_id s = Return (AsyncPipeline.trace_id ev)
        /\ current get_span_id s = Return (AsyncPipeline.span_id ev)
        /\ (slot _TRACE_ID s = None -> AsyncPipeline.trace_id ev = None)
        /\ (slot _SPAN_ID s = None -> AsyncPipeline.span_id ev = None)
        /\ AsyncPipeline.ts_ns ev = now
        /\ AsyncPipeline.level ev = level
        /\ AsyncPipeline.msg ev = msg
        /\ AsyncPipeline.attrs ev = attrs).
Proof.
  split; [apply make_event_duplicate|]. intros Hd.
  destruct (make_event_returns now level msg attrs s Hd)
    as (t & sp & Ht & Hs & Hm).
  eexists. split; [exact Hm|]. simpl. split; [done|]. split; [done|].
  split; [|split; [|done]].
  - intros Hu. unfold current, get_trace_id, ContextVar_get, slot in *.
    rewrite Hu in Ht. simpl in Ht. congruence.
  - intros Hu. unfold current, get_span_id, ContextVar_get, slot in *.
    rewrite Hu in Hs. simpl in Hs. congruence.
Qed.

(** X10: a [make_event] call inside nested with-blocks, its keywords not
    colliding with [level] or [msg], gives an event that carries, for each
    id, the argument of the innermost activation that set it, else the
    value in effect outside. A colliding call raises TypeError through all
    the blocks. Either way the Context is afterwards as before. *)
Theorem event_carries_innermost_ids (acts : list (value * value))
    now level msg attrs (s : State) :
  exists t0 sp0,
    current get_trace_id s = Return t0
    /\ current get_span_id s = Return sp0
    /\ (nested acts (AsyncPipeline.make_event now level msg attrs) s).1
       = (if AsyncPipeline.duplicate_keyword attrs then Raise TypeError
          else Return (AsyncPipeline.mkEvent now (innermost acts.*1 t0)
                         (innermost acts.*2 sp0) level msg attrs))
    /\ ctx_vars (nested acts (AsyncPipeline.make_event now level msg attrs) s).2
       = ctx_vars s.
Proof.
  destruct (get_ids_returns s) as (t0 & sp0 & _ & Hgt & Hgs).
  exists t0, sp0. split; [done|]. split; [done|]. split.
  - revert s t0 sp0 Hgt Hgs.
    induction acts as [|[t sp] acts IH]; intros s t0 sp0 Hgt Hgs.
    + simpl. destruct (AsyncPipeline.duplicate_keyword attrs) eqn:Hd.
      * by rewrite make_event_duplicate.
      * destruct (make_event_returns now level msg attrs s Hd)
          as (t' & sp' & Ht' & Hs' & ->). simpl. congruence.
    + simpl nested.
      rewrite use_span_outcome by apply nested_balanced, make_event_balanced.
      destruct (use_span_enter_getters t sp t0 sp0 s Hgt Hgs) as [Ht1 Hs1].
      rewrite (IH _ _ _ Ht1 Hs1). done.
  - apply (nested_balanced acts _ (make_event_balanced now level msg attrs) s).
Qed.

End MakeEvent.

Lemma make_event_reads_without_effect_witness :
  (exists ev : @AsyncPipeline.Event string,
     AsyncPipeline.make_event 42%Z "INFO" "tick" {[ "worker" := "A" ]} initial_state
       = (Return ev, initial_state)
     /\ AsyncPipeline.trace_id ev = None
     /\ AsyncPipeline.span_id ev = None)
  /\ AsyncPipeline.make_event 42%Z "INFO" "tick"
       ({[ "level" := "x" ]} : gmap string string) initial_state
     = (Raise TypeError, initial_state).
Proof.
  split.
  - destruct (make_event_reads_without_effect 42%Z "INFO" "tick"
                ({[ "worker" := "A" ]} : gmap string string) initial_state)
      as [_ Hok].
    destruct Hok as (ev & Hm & _ & _ & Ht & Hs & _); [reflexivity|].
    exists ev. split; [exact Hm|]. split; [apply Ht|apply Hs]; reflexivity.
  - apply (make_event_reads_without_effect 42%Z "INFO" "tick"
             ({[ "level" := "x" ]} : gmap string string) initial_state).
    reflexivity.
Defined.
